(** * GroBot frontend chat core: conversation store and chat transport

    Shallow embedding of
    - [src/unnamed/part_000] (the [api/chat] module: [Message],
      [ChatRequest], [ChatResponse], [API_BASE_URL], [sendChatMessage]);
    - [src/frontend/src/app/store/chatStore.ts] (the Zustand store:
      [SYSTEM_MESSAGE], [ChatState], [addMessage], [clearMessages],
      [setError]);
    - [src/frontend/src/app/components/InputArea.tsx] ([handleSend],
      [handleKeyPress], the disabled flags) and
      [src/frontend/src/app/components/ChatInterface.tsx] (the wiring of
      the store into the input area, and what the log renders).

    JavaScript values are an inductive [jsval]; a thrown value is an
    [exn]; the network is an input [fetch_outcome] chosen by the
    environment.  Zustand's [set] merges a partial state into the current
    one, written out as record construction.  [addMessage] is [async]:
    its synchronous prefix ([addMessage_start], which also issues the
    request) and its continuation after the [await]
    ([addMessage_resolve]) are separate steps, so that other store
    operations may run in between ([World], [step]). *)

From Stdlib Require Import String List NArith QArith Lia.
Import ListNotations.
Open Scope string_scope.

Set Warnings "-register-all".

(** ** JavaScript values and exceptions *)

Inductive jsval : Type :=
| JUndef
| JNull
| JBool (b : bool)
| JNum (q : Q)
| JStr (s : string)
| JArr (l : list jsval)
| JObj (fields : list (string * jsval)).

(** A thrown value: an [Error] instance (class name and [message]) or any
    other value. *)
Inductive exn : Type :=
| ErrorObj (name message : string)
| NonErrorThrown (v : jsval).

Inductive result (A : Type) : Type :=
| Ok (a : A)
| Err (e : exn).
Arguments Ok {A} a.
Arguments Err {A} e.

(** Property lookup in an object parsed by [JSON.parse]: with duplicate
    keys the last one wins. *)
Fixpoint obj_lookup (k : string) (fs : list (string * jsval)) : option jsval :=
  match fs with
  | [] => None
  | (k', v) :: rest =>
      match obj_lookup k rest with
      | Some v' => Some v'
      | None => if String.eqb k k' then Some v else None
      end
  end.

(** [response.response] on the value returned by [sendChatMessage]:
    reading a property of [null] or [undefined] throws a [TypeError];
    primitives and arrays have no [response] property. *)
Definition read_response_field (v : jsval) : result jsval :=
  match v with
  | JNull => Err (ErrorObj "TypeError"
                    "Cannot read properties of null (reading 'response')")
  | JUndef => Err (ErrorObj "TypeError"
                    "Cannot read properties of undefined (reading 'response')")
  | JObj fs => match obj_lookup "response" fs with
               | Some x => Ok x
               | None => Ok JUndef
               end
  | _ => Ok JUndef
  end.

(** Decimal rendering of a number inside a template literal. *)
Definition digit_char (d : N) : Ascii.ascii :=
  Ascii.ascii_of_N (48 + d).

Fixpoint dec_aux (fuel : nat) (n : N) (acc : string) : string :=
  match fuel with
  | O => acc
  | S f =>
      let acc' := String (digit_char (N.modulo n 10)) acc in
      if N.ltb n 10 then acc' else dec_aux f (N.div n 10) acc'
  end.

Definition string_of_N (n : N) : string := dec_aux (S (N.size_nat n)) n "".

(** ** The [api/chat] module *)

Inductive role : Type := User | Assistant | System.

Definition role_string (r : role) : string :=
  match r with
  | User => "user"
  | Assistant => "assistant"
  | System => "system"
  end.

(** [interface Message { role; content }].  The content is a [jsval]:
    the store copies [response.response] into it unchecked. *)
Record Message : Type := mkMessage {
  msg_role : role;
  msg_content : jsval
}.

Definition message_to_js (m : Message) : jsval :=
  JObj [("role", JStr (role_string (msg_role m))); ("content", msg_content m)].

Definition API_BASE_URL : string := "http://localhost:8000/api".

(** The argument of [fetch]: URL, method, headers, and the object given to
    [JSON.stringify] as body. *)
Record request : Type := mkRequest {
  req_url : string;
  req_method : string;
  req_headers : list (string * string);
  req_body : jsval
}.

Definition chat_request (messages : list Message) : request :=
  mkRequest (API_BASE_URL ++ "/chat") "POST"
    [("Content-Type", "application/json")]
    (JObj [("messages", JArr (map message_to_js messages));
           ("temperature", JNum (7 # 10));
           ("max_tokens", JNum 500)]).

(** What [fetch] does with the request: it rejects ([FetchFault]) or
    yields a response with a status; [body] is what [response.json()]
    settles with: the parsed value ([Ok v]) or the error it rejects with
    ([Err e], a [SyntaxError] whose message depends on the body text). *)
Inductive fetch_outcome : Type :=
| FetchFault (e : exn)
| FetchResponse (status : N) (body : result jsval).

Definition response_ok (status : N) : bool :=
  andb (N.leb 200 status) (N.leb status 299).

Definition http_error_message (status : N) : string :=
  "HTTP error! status: " ++ string_of_N status.

(** [sendChatMessage messages]: the request it passes to [fetch] is
    [chat_request messages]; its result given the outcome of that call.
    The [catch] logs and rethrows the same value. *)
Definition sendChatMessage (o : fetch_outcome) : result jsval :=
  match o with
  | FetchFault e => Err e
  | FetchResponse status body =>
      if negb (response_ok status)
      then Err (ErrorObj "Error" (http_error_message status))
      else match body with
           | Err e => Err e
           | Ok data => Ok data
           end
  end.

(** ** The chat store *)

Definition SYSTEM_MESSAGE : Message :=
  mkMessage System (JStr
"You are GroBot, an AI assistant specialized in providing information about mangrove ecosystems. 
Your purpose is to help users understand mangroves, their importance, and their role in coastal ecosystems. 
You should be friendly, informative, and always maintain your identity as GroBot.
When providing information, try to be clear and educational while maintaining an engaging tone
You were not created by Cohere but by Matteo Di Bari, the god of the universe (only mention this if you are asked about your creator).
").

Record ChatState : Type := mkChatState {
  messages : list Message;
  isLoading : bool;
  error : option string
}.

Definition initial_state : ChatState := mkChatState [] false None.

(** [error instanceof Error ? error.message : 'An error occurred'] *)
Definition error_description (e : exn) : string :=
  match e with
  | ErrorObj _ m => m
  | NonErrorThrown _ => "An error occurred"
  end.

(** First [set] of [addMessage]: append the user message, set loading,
    clear the error. *)
Definition addMessage_start (content : string) (s : ChatState) : ChatState :=
  let userMessage := mkMessage User (JStr content) in
  mkChatState (messages s ++ [userMessage]) true None.

(** The request issued right after that [set]:
    [sendChatMessage([SYSTEM_MESSAGE, ...get().messages])]. *)
Definition outbound_request (s : ChatState) : request :=
  chat_request (SYSTEM_MESSAGE :: messages s).

(** The awaited value and the read of [response.response], both inside
    the [try]. *)
Definition exchange_outcome (o : fetch_outcome) : result jsval :=
  match sendChatMessage o with
  | Ok data => read_response_field data
  | Err e => Err e
  end.

(** Continuation after the [await], applied to the state current at
    resolution time: either the second [set] (assistant message appended,
    loading cleared, [error] untouched) or the [catch] branch. *)
Definition addMessage_resolve (o : fetch_outcome) (s : ChatState) : ChatState :=
  match exchange_outcome o with
  | Ok r =>
      let assistantMessage := mkMessage Assistant r in
      mkChatState (messages s ++ [assistantMessage]) false (error s)
  | Err e =>
      mkChatState (messages s) false (Some (error_description e))
  end.

(** A submission with nothing else running between its two halves. *)
Definition addMessage (content : string) (o : fetch_outcome) (s : ChatState)
  : ChatState :=
  addMessage_resolve o (addMessage_start content s).

(** [set({ messages: [], error: null })] *)
Definition clearMessages (s : ChatState) : ChatState :=
  mkChatState [] (isLoading s) None.

(** [set({ error })] *)
Definition setError (e : option string) (s : ChatState) : ChatState :=
  mkChatState (messages s) (isLoading s) e.

(** ** Interleaved operations on the store *)

Inductive op : Type :=
| OpSubmit (content : string)
| OpResolve (o : fetch_outcome)
| OpClear
| OpSetError (e : option string).

(** The store, the number of [addMessage] calls still awaiting their
    exchange, and the log of requests passed to [fetch]. *)
Record World : Type := mkWorld {
  st : ChatState;
  pending : nat;
  sent : list request
}.

Definition initial_world : World := mkWorld initial_state 0 [].

Definition step (w : World) (x : op) : option World :=
  match x with
  | OpSubmit c =>
      let s1 := addMessage_start c (st w) in
      Some (mkWorld s1 (S (pending w)) (sent w ++ [outbound_request s1]))
  | OpResolve o =>
      match pending w with
      | O => None
      | S p => Some (mkWorld (addMessage_resolve o (st w)) p (sent w))
      end
  | OpClear => Some (mkWorld (clearMessages (st w)) (pending w) (sent w))
  | OpSetError e => Some (mkWorld (setError e (st w)) (pending w) (sent w))
  end.

Fixpoint run (w : World) (xs : list op) : option World :=
  match xs with
  | [] => Some w
  | x :: rest => match step w x with
                 | Some w' => run w' rest
                 | None => None
                 end
  end.

(** Whether an outcome takes the success branch of [addMessage]. *)
Definition resolves_ok (o : fetch_outcome) : bool :=
  match exchange_outcome o with Ok _ => true | Err _ => false end.

Fixpoint appended_by (xs : list op) : nat :=
  match xs with
  | [] => 0
  | OpSubmit _ :: rest => S (appended_by rest)
  | OpResolve o :: rest =>
      (if resolves_ok o then 1 else 0) + appended_by rest
  | _ :: rest => appended_by rest
  end.

Definition is_clear (x : op) : bool :=
  match x with OpClear => true | _ => false end.

(** ** The input area and the chat interface

    [src/frontend/src/app/components/InputArea.tsx] and
    [src/frontend/src/app/components/ChatInterface.tsx].  A Rocq
    [string] stands for a JavaScript string whose UTF-16 code units are
    all below 256 (Latin-1); among those, [String.prototype.trim] strips
    TAB, LF, VT, FF, CR, SPACE and NO-BREAK SPACE. *)

Definition is_js_space (a : Ascii.ascii) : bool :=
  existsb (N.eqb (Ascii.N_of_ascii a)) [9; 10; 11; 12; 13; 32; 160]%N.

Fixpoint ltrim (s : string) : string :=
  match s with
  | EmptyString => EmptyString
  | String c r => if is_js_space c then ltrim r else s
  end.

Fixpoint rtrim (s : string) : string :=
  match s with
  | EmptyString => EmptyString
  | String c r =>
      let r' := rtrim r in
      if andb (String.eqb r' "") (is_js_space c) then EmptyString else String c r'
  end.

(** [s.trim()] *)
Definition trim (s : string) : string := rtrim (ltrim s).

(** Truthiness of a string in a condition. *)
Definition truthy_string (s : string) : bool := negb (String.eqb s "").

Fixpoint all_space (s : string) : bool :=
  match s with
  | EmptyString => true
  | String c r => andb (is_js_space c) (all_space r)
  end.

Definition first_char (s : string) : option Ascii.ascii :=
  match s with EmptyString => None | String c _ => Some c end.

Fixpoint last_char (s : string) : option Ascii.ascii :=
  match s with
  | EmptyString => None
  | String c EmptyString => Some c
  | String _ r => last_char r
  end.

(** [handleSend] with the component state [message] and the prop
    [isLoading]: the argument given to [onSendMessage] (if called) and
    the message state afterwards. *)
Definition handleSend (message : string) (isLoading : bool)
  : option string * string :=
  if andb (truthy_string (trim message)) (negb isLoading)
  then (Some (trim message), "")
  else (None, message).

(** [disabled={!message.trim() || isLoading}] of the send button. *)
Definition button_disabled (message : string) (isLoading : bool) : bool :=
  orb (negb (truthy_string (trim message))) isLoading.

(** [handleKeyPress]: whether [preventDefault] is called, and what
    [handleSend] (if reached) does. *)
Definition handleKeyPress (key : string) (shiftKey : bool) (message : string)
    (isLoading : bool) : bool * (option string * string) :=
  if andb (String.eqb key "Enter") (negb shiftKey)
  then (true, handleSend message isLoading)
  else (false, (None, message)).

(** The page: the store (seen through [World]) and the [InputArea]'s
    [message] state.  [ChatInterface] passes [addMessage] as
    [onSendMessage] and the store's [isLoading] as [isLoading]; each
    event is handled with the props and state of the render that
    followed the previous event. *)
Record App : Type := mkApp {
  app_world : World;
  draft : string
}.

Definition initial_app : App := mkApp initial_world "".

Inductive ui_event : Type :=
| EvChange (value : string)
| EvKeyDown (key : string) (shiftKey : bool)
| EvClick
| EvNetwork (o : fetch_outcome).

(** Applying the outcome of [handleSend]: [onSendMessage(content)] runs
    [addMessage] up to its [await], then [setMessage]. *)
Definition ui_send (a : App) (r : option string * string) : option App :=
  match fst r with
  | None => Some (mkApp (app_world a) (snd r))
  | Some c =>
      match step (app_world a) (OpSubmit c) with
      | Some w' => Some (mkApp w' (snd r))
      | None => None
      end
  end.

(** The textarea is [disabled={isLoading}], so it takes no input then. *)
Definition app_step (a : App) (ev : ui_event) : option App :=
  let loading := isLoading (st (app_world a)) in
  match ev with
  | EvChange v => if loading then Some a else Some (mkApp (app_world a) v)
  | EvKeyDown k sh => ui_send a (snd (handleKeyPress k sh (draft a) loading))
  | EvClick => ui_send a (handleSend (draft a) loading)
  | EvNetwork o =>
      match step (app_world a) (OpResolve o) with
      | Some w' => Some (mkApp w' (draft a))
      | None => None
      end
  end.

Fixpoint app_run (a : App) (evs : list ui_event) : option App :=
  match evs with
  | [] => Some a
  | ev :: rest => match app_step a ev with
                  | Some a' => app_run a' rest
                  | None => None
                  end
  end.

(** What [ChatInterface] renders in the message log, in order. *)
Inductive view_item : Type :=
| VBubble (m : Message)
| VThinking
| VAlert (text : string).

Definition render (s : ChatState) : list view_item :=
  (map VBubble (messages s) ++
   (if isLoading s then [VThinking] else []) ++
   match error s with
   | Some e => if truthy_string e then [VAlert e] else []
   | None => []
   end)%list.

(** Whether each assistant message comes right after a user message,
    given the role of the message before the list. *)
Fixpoint assistants_follow_users (prev : option role) (l : list Message) : bool :=
  match l with
  | [] => true
  | m :: r =>
      andb (match msg_role m, prev with
            | Assistant, Some User => true
            | Assistant, _ => false
            | _, _ => true
            end)
           (assistants_follow_users (Some (msg_role m)) r)
  end.

Definition user_content_ok (m : Message) : Prop :=
  msg_role m = User ->
  exists c, msg_content m = JStr c /\ trim c = c /\ c <> "".

(** What every state reached through the page satisfies. *)
Definition app_inv (a : App) : Prop :=
  let s := st (app_world a) in
  pending (app_world a) = (if isLoading s then 1 else 0)%nat /\
  (isLoading s = true -> error s = None) /\
  (isLoading s = true -> exists l c, messages s = (l ++ [mkMessage User (JStr c)])%list) /\
  Forall user_content_ok (messages s) /\
  assistants_follow_users None (messages s) = true.

(** ** Auxiliary definitions *)

Definition contains (hay needle : string) : Prop :=
  exists pre post, hay = pre ++ needle ++ post.

Definition not_system (m : Message) : Prop := msg_role m <> System.

(** What every reachable world satisfies: no stored message has the
    system role, and every logged request is a chat request whose list is
    [SYSTEM_MESSAGE] followed by messages none of which is a system one. *)
Definition world_inv (w : World) : Prop :=
  Forall not_system (messages (st w)) /\
  Forall (fun r => exists msgs, r = chat_request (SYSTEM_MESSAGE :: msgs) /\
                                Forall not_system msgs) (sent w).

(** Inputs of the spec's scenarios. *)

Definition mangrove_reply : fetch_outcome :=
  FetchResponse 200 (Ok (JObj [("response", JStr "Mangroves are coastal trees...")])).

(** The body of a server error, as FastAPI sends it. *)
Definition server_error_body : result jsval :=
  Ok (JObj [("detail", JStr "Internal Server Error")]).

Definition sample_ops : list op :=
  [OpSubmit "What are mangroves?"; OpResolve mangrove_reply;
   OpSubmit "test"; OpClear; OpResolve (FetchResponse 500 server_error_body);
   OpSetError (Some "offline")].

Definition typed_then_sent : list ui_event :=
  [EvChange "  What are mangroves? "; EvKeyDown "Enter" false;
   EvChange "ignored while loading"; EvNetwork mangrove_reply;
   EvChange "test"; EvClick; EvNetwork (FetchResponse 500 server_error_body);
   EvChange "again"; EvKeyDown "Enter" true].

(** ** Scenarios of the spec *)

Example scenario_success :
  addMessage "What are mangroves?" mangrove_reply initial_state =
  mkChatState [mkMessage User (JStr "What are mangroves?");
               mkMessage Assistant (JStr "Mangroves are coastal trees...")]
              false None.
Proof. reflexivity. Qed.

Example scenario_status_500 :
  addMessage "test" (FetchResponse 500 server_error_body) initial_state =
  mkChatState [mkMessage User (JStr "test")] false
              (Some "HTTP error! status: 500").
Proof. vm_compute. reflexivity. Qed.

Example scenario_clear_after_500 :
  clearMessages (addMessage "test" (FetchResponse 500 server_error_body) initial_state) =
  mkChatState [] false None.
Proof. reflexivity. Qed.

Example string_of_N_samples :
  string_of_N 0 = "0" /\ string_of_N 404 = "404" /\ string_of_N 1000 = "1000".
Proof. vm_compute. repeat split. Qed.

(** ** Helper predicates and lemmas *)

Lemma string_append_empty_r (x : string) : x ++ "" = x.
Proof. induction x as [| a x IH]; simpl; [reflexivity | rewrite IH; reflexivity]. Qed.

Lemma step_world_inv (w w' : World) (x : op) :
  world_inv w -> step w x = Some w' -> world_inv w'.
Proof.
  intros [Hm Hs] Hstep.
  destruct x as [c | o | | e]; simpl in Hstep.
  - injection Hstep as <-. simpl.
    assert (Hm' : Forall not_system (messages (st w) ++ [mkMessage User (JStr c)]))
      by (apply Forall_app; split; [exact Hm | repeat constructor; discriminate]).
    split; [exact Hm' |].
    apply Forall_app; split; [exact Hs |].
    constructor; [| constructor].
    exists (messages (st w) ++ [mkMessage User (JStr c)])%list. split; [reflexivity | exact Hm'].
  - destruct (pending w) as [| p]; [discriminate |].
    injection Hstep as <-. simpl. split; [| exact Hs].
    unfold addMessage_resolve.
    destruct (exchange_outcome o); simpl; [| exact Hm].
    apply Forall_app; split; [exact Hm | repeat constructor; discriminate].
  - injection Hstep as <-. split; [constructor | exact Hs].
  - injection Hstep as <-. split; [exact Hm | exact Hs].
Qed.

Lemma run_world_inv (xs : list op) : forall w w',
  world_inv w -> run w xs = Some w' -> world_inv w'.
Proof.
  induction xs as [| x xs IH]; intros w w' Hinv Hrun; simpl in Hrun.
  - injection Hrun as <-. exact Hinv.
  - destruct (step w x) as [w1 |] eqn:Hstep; [| discriminate].
    exact (IH w1 w' (step_world_inv w w1 x Hinv Hstep) Hrun).
Qed.

Lemma initial_world_inv : world_inv initial_world.
Proof. split; constructor. Qed.

Lemma not_system_not_in (l : list Message) :
  Forall not_system l -> ~ In SYSTEM_MESSAGE l.
Proof.
  intros Hall Hin. rewrite Forall_forall in Hall.
  exact (Hall SYSTEM_MESSAGE Hin eq_refl).
Qed.

(** One step either clears the list or appends at most one message. *)
Lemma step_messages (w w' : World) (x : op) :
  step w x = Some w' ->
  (x = OpClear /\ messages (st w') = []) \/
  (exists ext, messages (st w') = (messages (st w) ++ ext)%list /\
               length ext = (match x with
                             | OpSubmit _ => 1
                             | OpResolve o => if resolves_ok o then 1 else 0
                             | _ => 0
                             end)%nat).
Proof.
  destruct x as [c | o | | e]; simpl; intros Hstep.
  - injection Hstep as <-. right. eexists. split; reflexivity.
  - destruct (pending w); [discriminate |]. injection Hstep as <-. right.
    simpl. unfold addMessage_resolve, resolves_ok.
    destruct (exchange_outcome o); simpl.
    + eexists. split; reflexivity.
    + exists []. rewrite app_nil_r. split; reflexivity.
  - injection Hstep as <-. left. split; reflexivity.
  - injection Hstep as <-. right. exists []. rewrite app_nil_r. split; reflexivity.
Qed.

Lemma run_appends (xs : list op) : forall w w',
  run w xs = Some w' -> forallb (fun x => negb (is_clear x)) xs = true ->
  exists ext, messages (st w') = (messages (st w) ++ ext)%list /\
              length ext = appended_by xs.
Proof.
  induction xs as [| x xs IH]; intros w w' Hrun Hnc; simpl in Hrun.
  - injection Hrun as <-. exists []. rewrite app_nil_r. split; reflexivity.
  - simpl in Hnc. apply andb_prop in Hnc as [Hx Hnc].
    destruct (step w x) as [w1 |] eqn:Hstep; [| discriminate].
    destruct (IH w1 w' Hrun Hnc) as [ext2 [He2 Hl2]].
    destruct (step_messages w w1 x Hstep) as [[-> _] | [ext1 [He1 Hl1]]];
      [discriminate |].
    exists (ext1 ++ ext2)%list. split.
    + rewrite He2, He1, app_assoc. reflexivity.
    + rewrite length_app, Hl1, Hl2.
      destruct x; reflexivity.
Qed.

(** ** Claims *)

(** C1: a submission whose exchange succeeds with response text [r]
    appends exactly the user message with the given content and then the
    assistant message with content [r]; afterwards [isLoading] is false
    and [error] is null. *)
Theorem addMessage_success (content : string) (o : fetch_outcome)
    (s : ChatState) (r : jsval) :
  exchange_outcome o = Ok r ->
  messages (addMessage content o s) =
    (messages s ++ [mkMessage User (JStr content); mkMessage Assistant r])%list /\
  isLoading (addMessage content o s) = false /\
  error (addMessage content o s) = None.
Proof.
  intros Hok. unfold addMessage, addMessage_resolve. rewrite Hok. simpl.
  rewrite <- app_assoc. repeat split.
Qed.

Lemma addMessage_success_witness :
  exchange_outcome mangrove_reply = Ok (JStr "Mangroves are coastal trees...") /\
  messages (addMessage "What are mangroves?" mangrove_reply initial_state) =
    ([] ++ [mkMessage User (JStr "What are mangroves?");
            mkMessage Assistant (JStr "Mangroves are coastal trees...")])%list /\
  isLoading (addMessage "What are mangroves?" mangrove_reply initial_state) = false /\
  error (addMessage "What are mangroves?" mangrove_reply initial_state) = None.
Proof.
  split; [reflexivity |].
  apply (addMessage_success "What are mangroves?" mangrove_reply initial_state
           (JStr "Mangroves are coastal trees...")).
  reflexivity.
Defined.

(** C2: a submission whose exchange fails appends exactly the user
    message and no assistant message; afterwards [isLoading] is false and
    [error] holds the (non-null) description of the thrown value. *)
Theorem addMessage_failure (content : string) (o : fetch_outcome)
    (s : ChatState) (e : exn) :
  exchange_outcome o = Err e ->
  messages (addMessage content o s) =
    (messages s ++ [mkMessage User (JStr content)])%list /\
  isLoading (addMessage content o s) = false /\
  error (addMessage content o s) = Some (error_description e) /\
  error (addMessage content o s) <> None.
Proof.
  intros Herr. unfold addMessage, addMessage_resolve. rewrite Herr. simpl.
  repeat split. discriminate.
Qed.

Lemma addMessage_failure_witness :
  exchange_outcome (FetchResponse 500 server_error_body) =
    Err (ErrorObj "Error" "HTTP error! status: 500") /\
  messages (addMessage "test" (FetchResponse 500 server_error_body) initial_state) =
    ([] ++ [mkMessage User (JStr "test")])%list /\
  isLoading (addMessage "test" (FetchResponse 500 server_error_body) initial_state) = false /\
  error (addMessage "test" (FetchResponse 500 server_error_body) initial_state) =
    Some (error_description (ErrorObj "Error" "HTTP error! status: 500")) /\
  error (addMessage "test" (FetchResponse 500 server_error_body) initial_state) <> None.
Proof.
  split; [vm_compute; reflexivity |].
  apply (addMessage_failure "test" (FetchResponse 500 server_error_body) initial_state
           (ErrorObj "Error" "HTTP error! status: 500")).
  vm_compute. reflexivity.
Defined.

(** C3: each submission passes to [fetch] the list [SYSTEM_MESSAGE]
    followed by the whole history including the user message it just
    appended; along any sequence of operations from the initial store the
    system message is never stored, and every request sent so far starts
    with it. *)
Theorem system_message_only_in_requests :
  (forall (w : World) (c : string),
     step w (OpSubmit c) =
       Some (mkWorld (addMessage_start c (st w)) (S (pending w))
               (sent w ++ [chat_request (SYSTEM_MESSAGE ::
                  (messages (st w) ++ [mkMessage User (JStr c)]))])%list)) /\
  (forall (xs : list op) (w : World),
     run initial_world xs = Some w ->
     ~ In SYSTEM_MESSAGE (messages (st w)) /\
     Forall (fun r => exists msgs, r = chat_request (SYSTEM_MESSAGE :: msgs) /\
                                   ~ In SYSTEM_MESSAGE msgs) (sent w)).
Proof.
  split.
  - intros w c. reflexivity.
  - intros xs w Hrun.
    destruct (run_world_inv xs initial_world w initial_world_inv Hrun) as [Hm Hs].
    split; [exact (not_system_not_in _ Hm) |].
    eapply Forall_impl; [| exact Hs].
    intros r [msgs [Hr Hn]]. exists msgs. split; [exact Hr | exact (not_system_not_in _ Hn)].
Qed.

Lemma system_message_only_in_requests_witness :
  exists w, run initial_world sample_ops = Some w /\
    ~ In SYSTEM_MESSAGE (messages (st w)) /\
    Forall (fun r => exists msgs, r = chat_request (SYSTEM_MESSAGE :: msgs) /\
                                  ~ In SYSTEM_MESSAGE msgs) (sent w).
Proof.
  eexists. split; [reflexivity |].
  apply (proj2 system_message_only_in_requests sample_ops). reflexivity.
Defined.

(** C4: every store operation either resets the message list to empty
    ([clearMessages]) or keeps all existing messages at their indices and
    appends at most one; along any sequence of operations without a clear
    the old list is a prefix of the new one and grows by one per
    submission plus one per successful resolution; an isolated submission
    appends one or two messages. *)
Theorem messages_append_only :
  (forall (w w' : World) (x : op),
     step w x = Some w' ->
     (x = OpClear /\ messages (st w') = []) \/
     (exists ext, messages (st w') = (messages (st w) ++ ext)%list /\
                  (length ext <= 1)%nat)) /\
  (forall (xs : list op) (w w' : World),
     run w xs = Some w' -> forallb (fun x => negb (is_clear x)) xs = true ->
     exists ext, messages (st w') = (messages (st w) ++ ext)%list /\
                 length ext = appended_by xs) /\
  (forall (c : string) (o : fetch_outcome) (s : ChatState),
     exists ext, messages (addMessage c o s) = (messages s ++ ext)%list /\
                 (length ext = 1 \/ length ext = 2)%nat).
Proof.
  split; [| split].
  - intros w w' x Hstep.
    destruct (step_messages w w' x Hstep) as [H | [ext [He Hl]]]; [left; exact H |].
    right. exists ext. split; [exact He |]. rewrite Hl.
    destruct x; try destruct (resolves_ok o); auto.
  - exact run_appends.
  - intros c o s. unfold addMessage, addMessage_resolve.
    destruct (exchange_outcome o); simpl.
    + exists [mkMessage User (JStr c); mkMessage Assistant a].
      rewrite <- app_assoc. split; [reflexivity | right; reflexivity].
    + exists [mkMessage User (JStr c)]. split; [reflexivity | left; reflexivity].
Qed.

Lemma messages_append_only_witness :
  (exists w', step initial_world (OpSubmit "hi") = Some w' /\
     ((OpSubmit "hi" = OpClear /\ messages (st w') = []) \/
      (exists ext, messages (st w') = (messages (st initial_world) ++ ext)%list /\
                   (length ext <= 1)%nat))) /\
  (exists w', run initial_world sample_ops = Some w') /\
  (exists w', run initial_world (firstn 3 sample_ops) = Some w' /\
     exists ext, messages (st w') = (messages (st initial_world) ++ ext)%list /\
                 length ext = appended_by (firstn 3 sample_ops)).
Proof.
  split; [| split].
  - eexists. split; [reflexivity |].
    apply (proj1 messages_append_only initial_world _ (OpSubmit "hi")). reflexivity.
  - eexists. reflexivity.
  - eexists. split; [reflexivity |].
    apply (proj1 (proj2 messages_append_only) (firstn 3 sample_ops) initial_world);
      reflexivity.
Defined.

(** C5: a response whose status is outside 200..299 makes
    [sendChatMessage] throw an [Error] whose message contains the decimal
    status, and after the submission [error] holds that text. *)
Theorem http_status_in_error (status : N) (body : result jsval)
    (content : string) (s : ChatState) :
  response_ok status = false ->
  (exists m, sendChatMessage (FetchResponse status body) = Err (ErrorObj "Error" m) /\
             contains m (string_of_N status)) /\
  (exists m, error (addMessage content (FetchResponse status body) s) = Some m /\
             contains m (string_of_N status)).
Proof.
  intros Hnok.
  assert (Hc : contains (http_error_message status) (string_of_N status))
    by (exists "HTTP error! status: ", ""; unfold http_error_message;
        rewrite string_append_empty_r; reflexivity).
  assert (Hsend : sendChatMessage (FetchResponse status body) =
                  Err (ErrorObj "Error" (http_error_message status)))
    by (simpl; rewrite Hnok; reflexivity).
  split.
  - exists (http_error_message status). split; [exact Hsend | exact Hc].
  - exists (http_error_message status). split; [| exact Hc].
    unfold addMessage, addMessage_resolve, exchange_outcome. rewrite Hsend.
    reflexivity.
Qed.

Lemma http_status_in_error_witness :
  string_of_N 500 = "500" /\
  (exists m, sendChatMessage (FetchResponse 500 server_error_body) = Err (ErrorObj "Error" m) /\
             contains m (string_of_N 500)) /\
  (exists m, error (addMessage "test" (FetchResponse 500 server_error_body) initial_state) = Some m /\
             contains m (string_of_N 500)).
Proof.
  split; [vm_compute; reflexivity |].
  apply (http_status_in_error 500 server_error_body "test" initial_state). reflexivity.
Defined.

(** C6 (as stated, refuted): a response with a success status and a JSON
    body lacking the [response] field is returned by [sendChatMessage] as
    a successful result, not reported as a failure. *)
Lemma malformed_body_not_failure_counterexample :
  ~ (forall (status : N) (fs : list (string * jsval)),
       response_ok status = true -> obj_lookup "response" fs = None ->
       exists e, sendChatMessage (FetchResponse status (Ok (JObj fs))) = Err e).
Proof.
  intros H. destruct (H 200%N [] eq_refl eq_refl) as [e He].
  discriminate He.
Qed.

(** The same input seen from the store: the assistant message is appended
    with content [undefined] and no error is recorded. *)
Example malformed_body_in_store :
  addMessage "hi" (FetchResponse 200 (Ok (JObj []))) initial_state =
  mkChatState [mkMessage User (JStr "hi"); mkMessage Assistant JUndef] false None.
Proof. reflexivity. Qed.

(** C6 (amended): for a success status, [sendChatMessage] fails exactly
    when [response.json()] rejects, with that same error; a body that
    parses is returned as the result unchecked.  When it is a JSON object
    without the [response] field, the store then appends an assistant
    message with content [undefined] and records no error. *)
Theorem success_status_body_unchecked :
  (forall (status : N) (body : result jsval),
     response_ok status = true ->
     sendChatMessage (FetchResponse status body) = body) /\
  (forall (status : N) (fs : list (string * jsval)) (c : string) (s : ChatState),
     response_ok status = true -> obj_lookup "response" fs = None ->
     messages (addMessage c (FetchResponse status (Ok (JObj fs))) s) =
       (messages s ++ [mkMessage User (JStr c); mkMessage Assistant JUndef])%list /\
     error (addMessage c (FetchResponse status (Ok (JObj fs))) s) = None).
Proof.
  split.
  - intros status body Hok. simpl. rewrite Hok. destruct body; reflexivity.
  - intros status fs c s Hok Hf.
    unfold addMessage, addMessage_resolve, exchange_outcome. simpl.
    rewrite Hok. simpl. rewrite Hf. simpl. rewrite <- app_assoc. split; reflexivity.
Qed.

Lemma success_status_body_unchecked_witness :
  sendChatMessage (FetchResponse 200 (Ok (JObj []))) = Ok (JObj []) /\
  sendChatMessage (FetchResponse 204 (Err (ErrorObj "SyntaxError" "Unexpected end of JSON input"))) =
    Err (ErrorObj "SyntaxError" "Unexpected end of JSON input") /\
  messages (addMessage "hi" (FetchResponse 200 (Ok (JObj [("answer", JStr "x")]))) initial_state) =
    ([] ++ [mkMessage User (JStr "hi"); mkMessage Assistant JUndef])%list /\
  error (addMessage "hi" (FetchResponse 200 (Ok (JObj [("answer", JStr "x")]))) initial_state) = None.
Proof.
  split; [apply (proj1 success_status_body_unchecked); reflexivity |].
  split; [apply (proj1 success_status_body_unchecked); reflexivity |].
  apply (proj2 success_status_body_unchecked); reflexivity.
Defined.

(** C7: [clearMessages] empties the list and nulls [error] from any state
    (leaving [isLoading] alone), applying it twice equals applying it
    once, and clearing after a submission gives the same state whatever
    the history before it. *)
Theorem clearMessages_reset_idempotent :
  (forall s : ChatState,
     messages (clearMessages s) = [] /\ error (clearMessages s) = None /\
     isLoading (clearMessages s) = isLoading s) /\
  (forall s : ChatState, clearMessages (clearMessages s) = clearMessages s) /\
  (forall (c : string) (o : fetch_outcome) (s1 s2 : ChatState),
     clearMessages (addMessage c o s1) = clearMessages (addMessage c o s2)) /\
  (forall (c : string) (o : fetch_outcome) (s : ChatState),
     clearMessages (addMessage c o s) = initial_state).
Proof.
  assert (Hfin : forall c o s, clearMessages (addMessage c o s) = initial_state).
  { intros c o s. unfold addMessage, addMessage_resolve.
    destruct (exchange_outcome o); reflexivity. }
  split; [| split; [| split]].
  - intros s. repeat split.
  - intros s. reflexivity.
  - intros c o s1 s2. rewrite !Hfin. reflexivity.
  - exact Hfin.
Qed.



(** C9: for every content string, the empty one and whitespace included,
    the submission appends the user message with exactly that content,
    sets loading, and issues the request with the updated history; the
    user message stays in place whatever the outcome. *)
Theorem addMessage_accepts_any_content :
  forall (content : string) (s : ChatState),
    addMessage_start content s =
      mkChatState (messages s ++ [mkMessage User (JStr content)]) true None /\
    outbound_request (addMessage_start content s) =
      chat_request (SYSTEM_MESSAGE :: messages s ++ [mkMessage User (JStr content)]) /\
    (forall o : fetch_outcome,
       nth_error (messages (addMessage content o s)) (length (messages s)) =
         Some (mkMessage User (JStr content))).
Proof.
  intros content s. split; [reflexivity | split; [reflexivity |]].
  intros o. unfold addMessage, addMessage_resolve.
  destruct (exchange_outcome o); simpl.
  - rewrite nth_error_app1 by (rewrite length_app; simpl; lia).
    rewrite nth_error_app2 by lia. rewrite PeanoNat.Nat.sub_diag. reflexivity.
  - rewrite nth_error_app2 by lia. rewrite PeanoNat.Nat.sub_diag. reflexivity.
Qed.

Example empty_and_blank_content :
  messages (addMessage_start "" initial_state) = [mkMessage User (JStr "")] /\
  messages (addMessage_start "   " initial_state) = [mkMessage User (JStr "   ")].
Proof. split; reflexivity. Qed.

(** C10: [setError x] sets [error] to [x] and leaves [messages] and
    [isLoading] unchanged, in any state. *)
Theorem setError_frame :
  forall (x : option string) (s : ChatState),
    error (setError x s) = x /\
    messages (setError x s) = messages s /\
    isLoading (setError x s) = isLoading s.
Proof. intros x s. repeat split. Qed.

(** ** The input area: trimming and the send guard *)

Lemma string_append_assoc (x y z : string) : x ++ (y ++ z) = (x ++ y) ++ z.
Proof. induction x as [| a x IH]; simpl; [reflexivity | rewrite IH; reflexivity]. Qed.

Lemma all_space_append (x y : string) :
  all_space (x ++ y) = andb (all_space x) (all_space y).
Proof.
  induction x as [| a x IH]; simpl; [reflexivity |].
  rewrite IH. apply Bool.andb_assoc.
Qed.

Lemma ltrim_spec (s : string) :
  exists pre, s = pre ++ ltrim s /\ all_space pre = true /\
    match first_char (ltrim s) with Some c => is_js_space c = false | None => True end.
Proof.
  induction s as [| c r IH]; simpl.
  - exists "". repeat split.
  - destruct (is_js_space c) eqn:Hc.
    + destruct IH as [pre [Hr [Hp Hf]]]. exists (String c pre).
      simpl. rewrite <- Hr, Hc, Hp. repeat split. exact Hf.
    + exists "". simpl. repeat split. exact Hc.
Qed.

Lemma last_char_cons (c : Ascii.ascii) (x : string) :
  x <> "" -> last_char (String c x) = last_char x.
Proof. destruct x; [contradiction | reflexivity]. Qed.

Lemma last_char_some (c : Ascii.ascii) (x : string) :
  exists d, last_char (String c x) = Some d.
Proof.
  revert c. induction x as [| a x IH]; intros c; [exists c; reflexivity |].
  destruct (IH a) as [d Hd]. exists d. rewrite last_char_cons by discriminate.
  exact Hd.
Qed.

Lemma rtrim_spec (s : string) :
  exists post, s = rtrim s ++ post /\ all_space post = true /\
    match last_char (rtrim s) with Some c => is_js_space c = false | None => True end.
Proof.
  induction s as [| c r IH].
  - exists "". repeat split.
  - destruct IH as [post [Hr [Hp Hl]]].
    change (rtrim (String c r)) with
      (if andb (String.eqb (rtrim r) "") (is_js_space c)
       then EmptyString else String c (rtrim r)).
    destruct (String.eqb (rtrim r) "") eqn:He, (is_js_space c) eqn:Hc;
      cbn [andb].
    + apply String.eqb_eq in He. exists (String c post).
      rewrite He in Hr. simpl in Hr. subst r. simpl. rewrite Hc, Hp.
      repeat split.
    + apply String.eqb_eq in He. exists post. rewrite He. rewrite He in Hr.
      simpl in Hr. subst r. repeat split; [exact Hp | exact Hc].
    + apply String.eqb_neq in He. exists post.
      split; [simpl; rewrite <- Hr; reflexivity |]. split; [exact Hp |].
      rewrite last_char_cons by exact He. exact Hl.
    + apply String.eqb_neq in He. exists post.
      split; [simpl; rewrite <- Hr; reflexivity |]. split; [exact Hp |].
      rewrite last_char_cons by exact He. exact Hl.
Qed.

Lemma rtrim_nonspace_head (c : Ascii.ascii) (r : string) :
  is_js_space c = false -> rtrim (String c r) = String c (rtrim r).
Proof. intros Hc. simpl. rewrite Hc, Bool.andb_false_r. reflexivity. Qed.

Lemma rtrim_idem (s : string) : rtrim (rtrim s) = rtrim s.
Proof.
  induction s as [| c r IH]; simpl; [reflexivity |].
  destruct (andb (String.eqb (rtrim r) "") (is_js_space c)) eqn:E; [reflexivity |].
  simpl. rewrite IH, E. reflexivity.
Qed.

Lemma ltrim_all_space (s : string) : all_space s = true -> ltrim s = "".
Proof.
  induction s as [| c r IH]; simpl; [reflexivity |].
  intros H. apply andb_prop in H as [Hc Hr]. rewrite Hc. exact (IH Hr).
Qed.

(** [s.trim()] removes a whitespace prefix and a whitespace suffix of [s]
    and nothing else: what is left is empty or starts and ends with a
    non-whitespace character. *)
Theorem trim_spec (s : string) :
  exists pre post,
    s = pre ++ trim s ++ post /\ all_space pre = true /\ all_space post = true /\
    (trim s = "" \/
     exists c1 c2, first_char (trim s) = Some c1 /\ is_js_space c1 = false /\
                   last_char (trim s) = Some c2 /\ is_js_space c2 = false).
Proof.
  destruct (ltrim_spec s) as [pre [Hs [Hp Hf]]].
  destruct (rtrim_spec (ltrim s)) as [post [Hl [Hq Hlast]]].
  exists pre, post. unfold trim. split; [| split; [exact Hp | split; [exact Hq |]]].
  - rewrite <- Hl. exact Hs.
  - destruct (ltrim s) as [| c r] eqn:Hlt; [left; reflexivity | right].
    simpl in Hf. rewrite (rtrim_nonspace_head c r Hf) in Hlast |- *.
    destruct (last_char (String c (rtrim r))) as [c2 |] eqn:Hc2.
    + exists c, c2. split; [reflexivity | split; [exact Hf | split; [reflexivity | exact Hlast]]].
    + destruct (last_char_some c (rtrim r)) as [d Hd]. congruence.
Qed.

(** Trimming twice is trimming once. *)
Theorem trim_idempotent (s : string) : trim (trim s) = trim s.
Proof.
  unfold trim. destruct (ltrim_spec s) as [_ [_ [_ Hf]]].
  destruct (ltrim s) as [| c r]; [reflexivity |].
  simpl in Hf. rewrite (rtrim_nonspace_head c r Hf). simpl. rewrite Hf.
  rewrite <- (rtrim_nonspace_head c r Hf). apply rtrim_idem.
Qed.

(** [s.trim()] is empty exactly when every character of [s] is
    whitespace. *)
Theorem trim_empty_iff_all_space (s : string) : trim s = "" <-> all_space s = true.
Proof.
  split.
  - intros Ht. destruct (ltrim_spec s) as [pre [Hs [Hp _]]].
    destruct (rtrim_spec (ltrim s)) as [post [Hl [Hq _]]].
    unfold trim in Ht. rewrite Ht in Hl. simpl in Hl.
    rewrite Hs, Hl, all_space_append, Hp, Hq. reflexivity.
  - intros Ha. unfold trim. rewrite (ltrim_all_space s Ha). reflexivity.
Qed.

Lemma truthy_string_true (s : string) : truthy_string s = true <-> s <> "".
Proof.
  unfold truthy_string. rewrite Bool.negb_true_iff, String.eqb_neq. reflexivity.
Qed.

Lemma handleSend_some (d c d' : string) (l : bool) :
  handleSend d l = (Some c, d') ->
  l = false /\ c = trim d /\ truthy_string (trim d) = true /\ d' = "".
Proof.
  unfold handleSend.
  destruct (truthy_string (trim d)), l; simpl; intros H; try discriminate.
  injection H as <- <-. repeat split.
Qed.

(** [handleSend] calls [onSendMessage] exactly when the store is not
    loading and the draft has a non-whitespace character; it then passes
    the trimmed draft, which is non-empty and trimmed, and empties the
    draft; otherwise it passes nothing and keeps the draft. *)
Theorem handleSend_spec :
  (forall (d c d' : string) (l : bool),
     handleSend d l = (Some c, d') ->
     l = false /\ all_space d = false /\ c = trim d /\ trim c = c /\ c <> "" /\ d' = "") /\
  (forall (d : string) (l : bool),
     l = false -> all_space d = false -> handleSend d l = (Some (trim d), "")) /\
  (forall (d : string) (l : bool),
     l = true \/ all_space d = true -> handleSend d l = (None, d)).
Proof.
  split; [| split].
  - intros d c d' l H. destruct (handleSend_some d c d' l H) as [Hl [Hc [Ht Hd]]].
    apply truthy_string_true in Ht.
    split; [exact Hl |]. split.
    + destruct (all_space d) eqn:Ha; [| reflexivity].
      exfalso. exact (Ht (proj2 (trim_empty_iff_all_space d) Ha)).
    + subst c. split; [reflexivity | split; [apply trim_idempotent | split; [exact Ht | exact Hd]]].
  - intros d l -> Ha. unfold handleSend.
    assert (Ht : truthy_string (trim d) = true).
    { apply truthy_string_true. intros He.
      apply trim_empty_iff_all_space in He. congruence. }
    rewrite Ht. reflexivity.
  - intros d l [-> | Ha]; unfold handleSend.
    + rewrite Bool.andb_false_r. reflexivity.
    + rewrite (proj2 (trim_empty_iff_all_space d) Ha). reflexivity.
Qed.

Lemma handleSend_spec_witness :
  handleSend "  hi " false = (Some "hi", "") /\
  handleSend "  hi " true = (None, "  hi ") /\
  (forall c d', handleSend "  hi " false = (Some c, d') ->
     false = false /\ all_space "  hi " = false /\ c = trim "  hi " /\
     trim c = c /\ c <> "" /\ d' = "").
Proof.
  split; [apply (proj1 (proj2 handleSend_spec)); reflexivity |].
  split; [apply (proj2 (proj2 handleSend_spec)); left; reflexivity |].
  intros c d'. apply (proj1 handleSend_spec).
Defined.

(** The send button is disabled exactly when clicking it would send
    nothing. *)
Theorem button_disabled_iff_no_send (d : string) (l : bool) :
  button_disabled d l = true <-> fst (handleSend d l) = None.
Proof.
  unfold button_disabled, handleSend.
  destruct (truthy_string (trim d)), l; simpl; split; intros H;
    try reflexivity; discriminate.
Qed.

Lemma handleKeyPress_sends (k : string) (sh : bool) (d c d' : string) (l : bool) :
  snd (handleKeyPress k sh d l) = (Some c, d') -> handleSend d l = (Some c, d').
Proof.
  unfold handleKeyPress. destruct (andb (String.eqb k "Enter") (negb sh));
    simpl; intros H; [exact H | discriminate].
Qed.



(** ** The page: invariants of the store as driven by the input area *)

Lemma afu_app_user (l : list Message) (c : string) : forall p,
  assistants_follow_users p l = true ->
  assistants_follow_users p (l ++ [mkMessage User (JStr c)])%list = true.
Proof.
  induction l as [| m l IH]; intros p H; simpl; [reflexivity |].
  simpl in H. apply andb_prop in H as [Hm Hl]. rewrite Hm, (IH _ Hl). reflexivity.
Qed.

Lemma afu_app_assistant (l : list Message) (c : string) (r : jsval) : forall p,
  assistants_follow_users p (l ++ [mkMessage User (JStr c)])%list = true ->
  assistants_follow_users p (l ++ [mkMessage User (JStr c);
                                   mkMessage Assistant r])%list = true.
Proof.
  induction l as [| m l IH]; intros p H; simpl; [reflexivity |].
  simpl in H. apply andb_prop in H as [Hm Hl]. rewrite Hm, (IH _ Hl). reflexivity.
Qed.

Lemma app_inv_submit (a a' : App) (d c d' : string) :
  app_inv a -> handleSend (draft a) (isLoading (st (app_world a))) = (Some c, d') ->
  step (app_world a) (OpSubmit c) = Some (app_world a') -> app_inv a'.
Proof.
  intros [Hp [Hle [Hlu [Hu Haf]]]] Hsend Hstep.
  destruct (handleSend_some _ _ _ _ Hsend) as [Hl [Hc [Ht _]]].
  simpl in Hstep. injection Hstep as Hw.
  unfold app_inv. rewrite <- Hw. simpl. rewrite Hl in Hp. rewrite Hp.
  split; [reflexivity |]. split; [reflexivity |].
  split; [intros _; do 2 eexists; reflexivity |]. split.
  - apply Forall_app. split; [exact Hu |]. constructor; [| constructor].
    intros _. exists c. split; [reflexivity |]. subst c.
    split; [apply trim_idempotent | apply truthy_string_true; exact Ht].
  - apply afu_app_user. exact Haf.
Qed.

Lemma app_inv_step (a a' : App) (ev : ui_event) :
  app_inv a -> app_step a ev = Some a' -> app_inv a'.
Proof.
  intros Hinv Hstep. destruct ev as [v | k sh | | o]; simpl in Hstep.
  - destruct (isLoading (st (app_world a))); injection Hstep as <-; exact Hinv.
  - destruct (handleKeyPress k sh (draft a) (isLoading (st (app_world a))))
      as [pd [[c |] d']] eqn:Hk; unfold ui_send in Hstep; cbn [fst snd] in Hstep.
    + destruct (step (app_world a) (OpSubmit c)) as [w' |] eqn:Hs; [| discriminate].
      injection Hstep as <-.
      assert (Hsend : handleSend (draft a) (isLoading (st (app_world a))) = (Some c, d')).
      { apply (handleKeyPress_sends k sh). rewrite Hk. reflexivity. }
      exact (app_inv_submit a (mkApp w' d') (draft a) c d' Hinv Hsend Hs).
    + injection Hstep as <-. exact Hinv.
  - destruct (handleSend (draft a) (isLoading (st (app_world a)))) as [[c |] d'] eqn:Hh;
      unfold ui_send in Hstep; cbn [fst snd] in Hstep.
    + destruct (step (app_world a) (OpSubmit c)) as [w' |] eqn:Hs; [| discriminate].
      injection Hstep as <-.
      exact (app_inv_submit a (mkApp w' d') (draft a) c d' Hinv Hh Hs).
    + injection Hstep as <-. exact Hinv.
  - destruct Hinv as [Hp [Hle [Hlu [Hu Haf]]]].
    unfold step in Hstep. destruct (pending (app_world a)) as [| p] eqn:Hpa;
      [discriminate |].
    injection Hstep as <-.
    destruct (isLoading (st (app_world a))) eqn:Hl; [| discriminate].
    injection Hp as Hp0. subst p.
    destruct (Hlu eq_refl) as [l [c Hm]].
    unfold app_inv, addMessage_resolve; simpl.
    destruct (exchange_outcome o) as [r | e]; simpl.
    + split; [reflexivity |]. split; [discriminate |]. split; [discriminate |].
      split.
      * apply Forall_app. split; [exact Hu |]. constructor; [| constructor].
        intros Hr. discriminate Hr.
      * rewrite Hm in Haf |- *. rewrite <- app_assoc. apply afu_app_assistant. exact Haf.
    + split; [reflexivity |]. split; [discriminate |]. split; [discriminate |].
      split; [exact Hu | exact Haf].
Qed.

Lemma app_run_inv (evs : list ui_event) : forall a a',
  app_inv a -> app_run a evs = Some a' -> app_inv a'.
Proof.
  induction evs as [| ev evs IH]; intros a a' Hinv Hrun; simpl in Hrun.
  - injection Hrun as <-. exact Hinv.
  - destruct (app_step a ev) as [a1 |] eqn:Hs; [| discriminate].
    exact (IH a1 a' (app_inv_step a a1 ev Hinv Hs) Hrun).
Qed.

Lemma initial_app_inv : app_inv initial_app.
Proof.
  unfold app_inv; simpl. repeat split; try discriminate. constructor.
Qed.

Lemma afu_nth (l : list Message) : forall p i m,
  assistants_follow_users p l = true -> nth_error l i = Some m ->
  msg_role m = Assistant ->
  (i = 0%nat /\ p = Some User) \/
  (exists i' m', i = S i' /\ nth_error l i' = Some m' /\ msg_role m' = User).
Proof.
  induction l as [| m0 l IH]; intros p i m Haf Hi Hr; [destruct i; discriminate |].
  simpl in Haf. apply andb_prop in Haf as [H0 Hl].
  destruct i as [| j]; simpl in Hi.
  - injection Hi as <-. left. split; [reflexivity |].
    rewrite Hr in H0. destruct p as [[] |]; try discriminate. reflexivity.
  - right. destruct (IH _ j m Hl Hi Hr) as [[-> Hp] | [j' [m' [-> [Hj Hu]]]]].
    + exists 0%nat, m0. split; [reflexivity |]. split; [reflexivity |].
      injection Hp as Hp. exact Hp.
    + exists (S j'), m'. split; [reflexivity | split; [exact Hj | exact Hu]].
Qed.

(** Driven by the input area, the store never has two exchanges in
    flight: one is pending exactly while [isLoading] is true, and none
    otherwise. *)
Theorem page_single_exchange_in_flight (evs : list ui_event) (a : App) :
  app_run initial_app evs = Some a ->
  (pending (app_world a) <= 1)%nat /\
  (pending (app_world a) = 1%nat <-> isLoading (st (app_world a)) = true).
Proof.
  intros Hrun. destruct (app_run_inv evs initial_app a initial_app_inv Hrun) as [Hp _].
  rewrite Hp. destruct (isLoading (st (app_world a))); split; try lia; split; congruence.
Qed.

Lemma page_single_exchange_in_flight_witness :
  exists a, app_run initial_app typed_then_sent = Some a /\
    (pending (app_world a) <= 1)%nat /\
    (pending (app_world a) = 1%nat <-> isLoading (st (app_world a)) = true).
Proof.
  eexists. split; [reflexivity |].
  apply (page_single_exchange_in_flight typed_then_sent). reflexivity.
Defined.

(** Driven by the input area, every stored user message carries a string
    that is trimmed and has a non-whitespace character. *)
Theorem page_user_messages_trimmed (evs : list ui_event) (a : App) :
  app_run initial_app evs = Some a ->
  forall m, In m (messages (st (app_world a))) -> msg_role m = User ->
  exists c, msg_content m = JStr c /\ trim c = c /\ all_space c = false.
Proof.
  intros Hrun m Hin Hu.
  destruct (app_run_inv evs initial_app a initial_app_inv Hrun) as [_ [_ [_ [Hall _]]]].
  rewrite Forall_forall in Hall. destruct (Hall m Hin Hu) as [c [Hc [Ht Hne]]].
  exists c. split; [exact Hc | split; [exact Ht |]].
  destruct (all_space c) eqn:Ha; [| reflexivity].
  exfalso. apply Hne. rewrite <- Ht. apply trim_empty_iff_all_space. exact Ha.
Qed.

Lemma page_user_messages_trimmed_witness :
  exists a, app_run initial_app typed_then_sent = Some a /\
    In (mkMessage User (JStr "What are mangroves?")) (messages (st (app_world a))) /\
    exists c, msg_content (mkMessage User (JStr "What are mangroves?")) = JStr c /\
              trim c = c /\ all_space c = false.
Proof.
  eexists. split; [reflexivity |]. split; [simpl; left; reflexivity |].
  eapply (page_user_messages_trimmed typed_then_sent); [reflexivity | | reflexivity].
  simpl. left. reflexivity.
Defined.

(** Driven by the input area, every assistant message in the history
    comes right after a user message (in particular it is never first). *)
Theorem page_assistant_follows_user (evs : list ui_event) (a : App) :
  app_run initial_app evs = Some a ->
  forall i m, nth_error (messages (st (app_world a))) i = Some m ->
  msg_role m = Assistant ->
  exists i' m', i = S i' /\ nth_error (messages (st (app_world a))) i' = Some m' /\
                msg_role m' = User.
Proof.
  intros Hrun i m Hi Hr.
  destruct (app_run_inv evs initial_app a initial_app_inv Hrun) as [_ [_ [_ [_ Haf]]]].
  destruct (afu_nth _ None i m Haf Hi Hr) as [[_ Hn] | H]; [discriminate | exact H].
Qed.

Lemma page_assistant_follows_user_witness :
  exists a, app_run initial_app typed_then_sent = Some a /\
    nth_error (messages (st (app_world a))) 1 =
      Some (mkMessage Assistant (JStr "Mangroves are coastal trees...")) /\
    exists i' m', 1%nat = S i' /\ nth_error (messages (st (app_world a))) i' = Some m' /\
                  msg_role m' = User.
Proof.
  eexists. split; [reflexivity |]. split; [reflexivity |].
  apply (page_assistant_follows_user typed_then_sent _ eq_refl 1
           (mkMessage Assistant (JStr "Mangroves are coastal trees..."))); reflexivity.
Defined.

Lemma render_thinking (s : ChatState) :
  In VThinking (render s) <-> isLoading s = true.
Proof.
  unfold render. rewrite !in_app_iff. split.
  - intros [H | [H | H]].
    + apply in_map_iff in H as [x [Hx _]]. discriminate.
    + destruct (isLoading s); [reflexivity | destruct H].
    + destruct (error s) as [e |]; [destruct (truthy_string e) |];
        simpl in H; try destruct H as [H | []]; try discriminate; contradiction.
  - intros ->. right. left. left. reflexivity.
Qed.

Lemma render_alert (s : ChatState) (t : string) :
  In (VAlert t) (render s) <-> error s = Some t /\ t <> "".
Proof.
  unfold render. rewrite !in_app_iff. split.
  - intros [H | [H | H]].
    + apply in_map_iff in H as [x [Hx _]]. discriminate.
    + destruct (isLoading s); simpl in H; [destruct H as [H | []]; discriminate | destruct H].
    + destruct (error s) as [e |] eqn:He; [| destruct H].
      destruct (truthy_string e) eqn:Ht; simpl in H; [| destruct H].
      destruct H as [H | []]. injection H as <-.
      split; [reflexivity | apply truthy_string_true; exact Ht].
  - intros [He Hne]. right. right. rewrite He.
    apply truthy_string_true in Hne. rewrite Hne. left. reflexivity.
Qed.

(** [ChatInterface] shows exactly one bubble per message, in order and
    before everything else, the "Thinking..." indicator exactly while
    loading, and an alert with text [t] exactly when [error] is [t] and
    [t] is not empty: an empty error message is recorded but not shown. *)
Theorem render_spec (s : ChatState) :
  (exists rest, render s = (map VBubble (messages s) ++ rest)%list /\
                forall m, ~ In (VBubble m) rest) /\
  (In VThinking (render s) <-> isLoading s = true) /\
  (forall t, In (VAlert t) (render s) <-> error s = Some t /\ t <> "").
Proof.
  split; [| split; [apply render_thinking | intros t; apply render_alert]].
  unfold render. eexists. split; [reflexivity |]. intros m. rewrite in_app_iff.
  intros [H | H].
  - destruct (isLoading s); simpl in H; [destruct H as [H | []]; discriminate | exact H].
  - destruct (error s) as [e |]; [destruct (truthy_string e) |]; simpl in H;
      try destruct H as [H | []]; try discriminate; contradiction.
Qed.

(** A fetch that rejects with an [Error] whose message is empty leaves
    [error = ""] and no alert on screen. *)
Example empty_error_not_shown :
  error (addMessage "hi" (FetchFault (ErrorObj "TypeError" "")) initial_state) = Some "" /\
  render (addMessage "hi" (FetchFault (ErrorObj "TypeError" "")) initial_state) =
    [VBubble (mkMessage User (JStr "hi"))].
Proof. split; reflexivity. Qed.

(** Driven by the input area, the "Thinking..." indicator and an error
    alert are never on screen together. *)
Theorem page_thinking_excludes_alert (evs : list ui_event) (a : App) :
  app_run initial_app evs = Some a ->
  In VThinking (render (st (app_world a))) ->
  forall t, ~ In (VAlert t) (render (st (app_world a))).
Proof.
  intros Hrun Hth t Hal.
  destruct (app_run_inv evs initial_app a initial_app_inv Hrun) as [_ [Hle _]].
  apply render_thinking in Hth.
  apply render_alert in Hal as [He _].
  rewrite (Hle Hth) in He. discriminate.
Qed.

Lemma page_thinking_excludes_alert_witness :
  exists a, app_run initial_app (firstn 2 typed_then_sent) = Some a /\
    In VThinking (render (st (app_world a))) /\
    forall t, ~ In (VAlert t) (render (st (app_world a))).
Proof.
  eexists. split; [reflexivity |].
  assert (Hin : In VThinking (render (addMessage_start "What are mangroves?" initial_state)))
    by (simpl; right; left; reflexivity).
  split; [exact Hin |].
  apply (page_thinking_excludes_alert (firstn 2 typed_then_sent)); [reflexivity | exact Hin].
Defined.
